(** * cropper-wrapper: the Vue facade over cropperjs 1.x

    A shallow embedding of [packages/cropper-1.x/lib/cropper.vue] and of the
    type surface it imports ([cropper.type]).  The wrapped library is a black
    box: it appears here as an interface (its carrier types, its constructor
    and the reaction of an instance to a method call), and the facade is the
    code that sits between the host application and it.

    JavaScript objects used as dictionaries (style objects, the options
    literal handed to the constructor) are finite maps with string keys. *)

From stdpp Require Import base option strings list gmap.

Open Scope string_scope.
Open Scope list_scope.
Open Scope nat_scope.

Set Warnings "-register-all".

(** ** The type surface ([cropper.type]) *)

Inductive DragMode := DragCrop | DragMove | DragNone.

Inductive ImageSmoothingQuality := QLow | QMedium | QHigh.

(** The names of the six callback slots of [Options] (the last six fields of
    the interface). *)
Inductive hook := HReady | HCropstart | HCropmove | HCropend | HCrop | HZoom.

Definition hook_key (h : hook) : string :=
  match h with
  | HReady => "ready"
  | HCropstart => "cropstart"
  | HCropmove => "cropmove"
  | HCropend => "cropend"
  | HCrop => "crop"
  | HZoom => "zoom"
  end.

Definition all_hooks : list hook :=
  [HReady; HCropstart; HCropmove; HCropend; HCrop; HZoom].

(** Every field name of [interface Options], in declaration order. *)
Definition Options_fields : list string :=
  [ "aspectRatio"; "autoCrop"; "autoCropArea"; "background"; "center";
    "checkCrossOrigin"; "checkOrientation"; "cropBoxMovable";
    "cropBoxResizable"; "data"; "dragMode"; "guides"; "highlight";
    "initialAspectRatio"; "minCanvasHeight"; "minCanvasWidth";
    "minContainerHeight"; "minContainerWidth"; "minCropBoxHeight";
    "minCropBoxWidth"; "modal"; "movable"; "preview"; "responsive";
    "restore"; "rotatable"; "scalable"; "toggleDragModeOnDblclick";
    "viewMode"; "wheelZoomRatio"; "zoomOnTouch"; "zoomOnWheel"; "zoomable";
    "ready"; "crop"; "cropend"; "cropmove"; "cropstart"; "zoom" ].

(** Every method name of [interface Cropper] (the constructor apart), in
    declaration order. *)
Definition Cropper_methods : list string :=
  [ "clear"; "crop"; "destroy"; "disable"; "enable"; "getCanvasData";
    "getContainerData"; "getCropBoxData"; "getCroppedCanvas"; "getData";
    "getImageData"; "move"; "moveTo"; "replace"; "reset"; "rotate";
    "rotateTo"; "scale"; "scaleX"; "scaleY"; "setAspectRatio";
    "setCanvasData"; "setCropBoxData"; "setData"; "setDragMode"; "zoom";
    "zoomTo" ].

(** ** Signals emitted to the host ([defineEmits]) *)

(** An emission is the event name and the arguments that follow it in the
    call [emit(name, ...args)]. *)
Record emission (payload : Type) := Emission {
  ev_name : string;
  ev_args : list payload
}.
Arguments Emission {payload} _ _.
Arguments ev_name {payload} _.
Arguments ev_args {payload} _.

(** The event names declared by [defineEmits], in declaration order. *)
Definition declared_emits : list string :=
  ["result"; "ready"; "start"; "move"; "end"; "crop"; "zoom"].

(** ** CSS style objects *)

Abbreviation CSSProperties := (gmap string string).

(** [{ ...a, ...b }]: the entries of [b] win over those of [a]. *)
Definition spread (a b : CSSProperties) : CSSProperties := b ∪ a.

Inductive Crossorigin := Anonymous | UseCredentials | EmptyCrossorigin.

Section Surface.

(** Numbers are only carried, never computed on; [value] stands for what the
    wrapped library produces: what its methods return, what they throw and
    the detail of the events it fires. *)
Context {number value : Type}.

(** *** Argument records *)

Record SetDataOptions := {
  sd_x : option number; sd_y : option number;
  sd_width : option number; sd_height : option number;
  sd_rotate : option number;
  sd_scaleX : option number; sd_scaleY : option number
}.

Record SetCanvasDataOptions := {
  sc_left : option number; sc_top : option number;
  sc_width : option number; sc_height : option number
}.

Record SetCropBoxDataOptions := {
  sb_left : option number; sb_top : option number;
  sb_width : option number; sb_height : option number
}.

Record GetCroppedCanvasOptions := {
  gc_width : option number; gc_height : option number;
  gc_minWidth : option number; gc_minHeight : option number;
  gc_maxWidth : option number; gc_maxHeight : option number;
  gc_rounded : option bool;
  gc_fillColor : option string;
  gc_imageSmoothingEnabled : option bool;
  gc_imageSmoothingQuality : option ImageSmoothingQuality
}.

(** The object literal [{}]. *)
Definition empty_GetCroppedCanvasOptions : GetCroppedCanvasOptions :=
  {| gc_width := None; gc_height := None;
     gc_minWidth := None; gc_minHeight := None;
     gc_maxWidth := None; gc_maxHeight := None;
     gc_rounded := None; gc_fillColor := None;
     gc_imageSmoothingEnabled := None;
     gc_imageSmoothingQuality := None |}.

Record Pivot := { pivot_x : number; pivot_y : number }.

(** *** Calls on the wrapped instance

    One constructor per method of [interface Cropper]; an optional parameter
    is an [option], [None] standing for an argument that is omitted or
    [undefined] (JavaScript treats the two alike when it binds parameters). *)
Inductive ucall :=
| UClear
| UCrop
| UDestroy
| UDisable
| UEnable
| UGetCanvasData
| UGetContainerData
| UGetCropBoxData
| UGetCroppedCanvas (options : option GetCroppedCanvasOptions)
| UGetData (rounded : option bool)
| UGetImageData
| UMove (offsetX : number) (offsetY : option number)
| UMoveTo (x : number) (y : option number)
| UReplace (url : string) (onlyColorChanged : option bool)
| UReset
| URotate (degree : number)
| URotateTo (degree : number)
| UScale (scaleX : number) (scaleY : option number)
| UScaleX (scaleX : number)
| UScaleY (scaleY : number)
| USetAspectRatio (aspectRatio : number)
| USetCanvasData (data : SetCanvasDataOptions)
| USetCropBoxData (data : SetCropBoxDataOptions)
| USetData (data : SetDataOptions)
| USetDragMode (mode : DragMode)
| UZoom (ratio : number)
| UZoomTo (ratio : number) (pivot : option Pivot).

Definition ucall_name (c : ucall) : string :=
  match c with
  | UClear => "clear"
  | UCrop => "crop"
  | UDestroy => "destroy"
  | UDisable => "disable"
  | UEnable => "enable"
  | UGetCanvasData => "getCanvasData"
  | UGetContainerData => "getContainerData"
  | UGetCropBoxData => "getCropBoxData"
  | UGetCroppedCanvas _ => "getCroppedCanvas"
  | UGetData _ => "getData"
  | UGetImageData => "getImageData"
  | UMove _ _ => "move"
  | UMoveTo _ _ => "moveTo"
  | UReplace _ _ => "replace"
  | UReset => "reset"
  | URotate _ => "rotate"
  | URotateTo _ => "rotateTo"
  | UScale _ _ => "scale"
  | UScaleX _ => "scaleX"
  | UScaleY _ => "scaleY"
  | USetAspectRatio _ => "setAspectRatio"
  | USetCanvasData _ => "setCanvasData"
  | USetCropBoxData _ => "setCropBoxData"
  | USetData _ => "setData"
  | USetDragMode _ => "setDragMode"
  | UZoom _ => "zoom"
  | UZoomTo _ _ => "zoomTo"
  end.

Definition is_destroy (c : ucall) : bool :=
  match c with UDestroy => true | _ => false end.

(** *** Completions of a JavaScript call *)

Inductive jsval :=
| Undefined
| Lib (v : value).

(** What a method of the wrapped library does: return or throw. *)
Inductive lib_result :=
| LibReturn (v : jsval)
| LibRaise (e : value).

(** What a method of the facade does.  Besides what the library throws, the
    facade itself can throw: reading a property of [undefined] is a
    [TypeError] ("Cannot read properties of undefined (reading '...')"). *)
Inductive thrown :=
| TypeError_reading (property : string)
| LibThrow (e : value).

Inductive completion :=
| Return (v : jsval)
| Throw (t : thrown).

(** A library result that comes out of the facade untouched. *)
Definition propagate (r : lib_result) : completion :=
  match r with
  | LibReturn v => Return v
  | LibRaise e => Throw (LibThrow e)
  end.

(** *** The options literal handed to the constructor *)

(** A callback of the literal is a closure over [emit]: it is the list of
    emissions it performs when called with an event. *)
Inductive option_value :=
| OptNumber (n : option number)
| OptCallback (f : value -> list (emission value)).

(** What one method call makes an instance do: its result, the state it
    leaves the instance in and the events it fires while running. *)
Record reaction (Inst : Type) := Reaction {
  r_result : lib_result;
  r_state : Inst;
  r_fired : list (hook * value)
}.

(** *** Component props ([ImageCutEditorProps]) *)

Record Props := {
  containerStyle : CSSProperties;
  src : option string;
  alt : option string;
  imgStyle : CSSProperties;
  crossorigin : option Crossorigin;
  aspectRatio : option number
}.

End Surface.

Arguments SetDataOptions : clear implicits.
Arguments SetCanvasDataOptions : clear implicits.
Arguments SetCropBoxDataOptions : clear implicits.
Arguments GetCroppedCanvasOptions : clear implicits.
Arguments Pivot : clear implicits.
Arguments ucall : clear implicits.
Arguments jsval : clear implicits.
Arguments lib_result : clear implicits.
Arguments thrown : clear implicits.
Arguments completion : clear implicits.
Arguments option_value : clear implicits.
Arguments reaction : clear implicits.
Arguments Props : clear implicits.
Arguments Reaction {value Inst} _ _ _.
Arguments r_result {value Inst} _.
Arguments r_state {value Inst} _.
Arguments r_fired {value Inst} _.

(** ** The wrapped library

    The interface through which the facade sees [cropperjs]: the carrier
    types, the constructor [new CropperJs(element, options)] and the reaction
    of an instance to one method call. *)
Class CropperLib := {
  number : Type;
  element : Type;
  value : Type;
  Inst : Type;
  lib_new : element -> gmap string (option_value number value) -> Inst;
  lib_run : ucall number -> Inst -> reaction value Inst
}.

(** ** Tables of the specification *)

(** The forwarding set as the specification lists it. *)
Definition spec_forwarding_set : list string :=
  [ "reset"; "clear"; "crop"; "replace"; "enable"; "disable"; "destroy";
    "move"; "moveTo"; "zoom"; "zoomTo"; "rotate"; "rotateTo"; "scaleX";
    "scaleY"; "scale"; "getData"; "getContainerData"; "getImageData";
    "getCanvasData"; "setCanvasData"; "getCropBoxData"; "setCropBoxData";
    "getCroppedCanvas"; "setAspectRatio"; "setDragMode" ].

(** The signal the specification pairs with each hook. *)
Definition signal_of (h : hook) : string :=
  match h with
  | HReady => "ready"
  | HCropstart => "start"
  | HCropmove => "move"
  | HCropend => "end"
  | HCrop => "crop"
  | HZoom => "zoom"
  end.

(** The signals the specification lists as emitted. *)
Definition spec_signals : list string :=
  ["ready"; "start"; "move"; "end"; "crop"; "zoom"].

(** ** The component ([cropper.vue]) *)

Section Facade.

Context {L : CropperLib}.

Abbreviation Options := (gmap string (option_value number value)).

(** The object a [CropperJs] reference points to: the element and options it
    was constructed with and its current internal state. *)
Record instance := Instance {
  inst_element : element;
  inst_options : Options;
  inst_state : Inst
}.

(** What crosses the boundary to the wrapped library. *)
Inductive uevent :=
| UNew (el : element) (opts : Options)
| UInvoke (c : ucall number).

(** The component instance: its props, the two refs of the script, the
    signals it has emitted so far and the trace of what it has asked of the
    wrapped library.  [isMounted] is the host framework's flag: the mounted
    hook of a component instance has run. *)
Record state := State {
  props : Props number;
  isMounted : bool;
  imageRef : option element;
  cropper : option instance;
  emitted : list (emission value);
  ulog : list uevent
}.

(** The state the script's setup leaves: both refs empty. *)
Definition setup (p : Props number) : state :=
  {| props := p; isMounted := false; imageRef := None; cropper := None;
     emitted := []; ulog := [] |}.

(** [emit(name)]: the emission performed by a callback. *)
Definition emit (name : string) : list (emission value) := [Emission name []].

(** The options literal of [onMounted]. *)
Definition cropper_options (aspectRatio : option number) : Options :=
  {[ "aspectRatio" := OptNumber aspectRatio;
     "ready" := OptCallback (λ _, emit "ready");
     "cropstart" := OptCallback (λ _, emit "start");
     "cropmove" := OptCallback (λ _, emit "move");
     "cropend" := OptCallback (λ _, emit "end");
     "crop" := OptCallback (λ _, emit "crop");
     "zoom" := OptCallback (λ _, emit "zoom") ]}.

(** The [onMounted] callback. *)
Definition onMounted (s : state) : state :=
  match imageRef s with
  | Some el =>
      let opts := cropper_options (aspectRatio (props s)) in
      {| props := props s; isMounted := isMounted s; imageRef := imageRef s;
         cropper := Some (Instance el opts (lib_new el opts));
         emitted := emitted s;
         ulog := ulog s ++ [UNew el opts] |}
  | None => s
  end.

(** The library fires hook [f.1] with detail [f.2] on an instance constructed
    with [opts]: the callback stored under that key runs. *)
Definition deliver (opts : Options) (f : hook * value) : list (emission value) :=
  match opts !! hook_key f.1 with
  | Some (OptCallback cb) => cb f.2
  | _ => []
  end.

(** A method call that reaches instance [i]. *)
Definition forward (c : ucall number) (i : instance) (s : state)
  : completion value * state :=
  let r := lib_run c (inst_state i) in
  (propagate (r_result r),
   {| props := props s; isMounted := isMounted s; imageRef := imageRef s;
      cropper := Some (Instance (inst_element i) (inst_options i) (r_state r));
      emitted := emitted s ++ concat (deliver (inst_options i) <$> r_fired r);
      ulog := ulog s ++ [UInvoke c] |}).

(** [cropper.value?.m(...)]: optional chaining. *)
Definition optional_chain (c : ucall number) (s : state)
  : completion value * state :=
  match cropper s with
  | None => (Return Undefined, s)
  | Some i => forward c i s
  end.

(** [cropper.value!.m(...)]: the non-null assertion is erased by the
    compiler, what runs is [cropper.value.m(...)]. *)
Definition non_null_assert (c : ucall number) (s : state)
  : completion value * state :=
  match cropper s with
  | None => (Throw (TypeError_reading (ucall_name c)), s)
  | Some i => forward c i s
  end.

(** *** The methods of the script, in source order *)

Definition reset := optional_chain UReset.

Definition clear := optional_chain UClear.

Definition initCrop := optional_chain UCrop.

Definition replace (url : string) (onlyColorChanged : option bool) :=
  let onlyColorChanged := default false onlyColorChanged in
  optional_chain (UReplace url (Some onlyColorChanged)).

Definition enable := optional_chain UEnable.

Definition disable := optional_chain UDisable.

Definition destroy := optional_chain UDestroy.

Definition move (offsetX : number) (offsetY : option number) :=
  non_null_assert (UMove offsetX offsetY).

Definition moveTo (x : number) (y : option number) :=
  let y := default x y in
  optional_chain (UMoveTo x (Some y)).

Definition zoom (ratio : number) := optional_chain (UZoom ratio).

Definition zoomTo (ratio : number) (_originalEvent : option (Pivot number)) :=
  optional_chain (UZoomTo ratio _originalEvent).

Definition rotate (degree : number) := optional_chain (URotate degree).

Definition rotateTo (degree : number) := optional_chain (URotateTo degree).

Definition scaleX (scaleX : number) := optional_chain (UScaleX scaleX).

Definition scaleY (scaleY : number) := optional_chain (UScaleY scaleY).

Definition scale (scaleX : number) (scaleY : option number) :=
  let scaleY := default scaleX scaleY in
  optional_chain (UScale scaleX (Some scaleY)).

Definition getData (rounded : option bool) :=
  let rounded := default false rounded in
  optional_chain (UGetData (Some rounded)).

Definition setData (data : SetDataOptions number) :=
  non_null_assert (USetData data).

Definition getContainerData := optional_chain UGetContainerData.

Definition getImageData := optional_chain UGetImageData.

Definition getCanvasData := optional_chain UGetCanvasData.

Definition setCanvasData (data : SetCanvasDataOptions number) :=
  non_null_assert (USetCanvasData data).

Definition getCropBoxData := optional_chain UGetCropBoxData.

Definition setCropBoxData (data : SetCropBoxDataOptions number) :=
  non_null_assert (USetCropBoxData data).

Definition getCroppedCanvas (options : option (GetCroppedCanvasOptions number)) :=
  let options := default empty_GetCroppedCanvasOptions options in
  non_null_assert (UGetCroppedCanvas (Some options)).

Definition setAspectRatio (aspectRatio : number) :=
  non_null_assert (USetAspectRatio aspectRatio).

Definition setDragMode (mode : DragMode) :=
  non_null_assert (USetDragMode mode).

(** *** [defineExpose] *)

(** The keys of the exposed object, in the order of the literal. *)
Definition defineExpose_keys : list string :=
  [ "reset"; "clear"; "initCrop"; "replace"; "enable"; "disable"; "destroy";
    "move"; "moveTo"; "zoom"; "zoomTo"; "rotate"; "rotateTo"; "scaleX";
    "scaleY"; "scale"; "getData"; "getContainerData"; "getImageData";
    "getCanvasData"; "getCropBoxData"; "setData"; "setCanvasData";
    "setCropBoxData"; "getCroppedCanvas"; "setAspectRatio"; "setDragMode" ].

(** A call by the host on the exposed object: the key it uses and the
    arguments it supplies ([None] for an optional argument it leaves out). *)
Inductive call :=
| CallReset
| CallClear
| CallInitCrop
| CallReplace (url : string) (onlyColorChanged : option bool)
| CallEnable
| CallDisable
| CallDestroy
| CallMove (offsetX : number) (offsetY : option number)
| CallMoveTo (x : number) (y : option number)
| CallZoom (ratio : number)
| CallZoomTo (ratio : number) (pivot : option (Pivot number))
| CallRotate (degree : number)
| CallRotateTo (degree : number)
| CallScaleX (scaleX : number)
| CallScaleY (scaleY : number)
| CallScale (scaleX : number) (scaleY : option number)
| CallGetData (rounded : option bool)
| CallGetContainerData
| CallGetImageData
| CallGetCanvasData
| CallGetCropBoxData
| CallSetData (data : SetDataOptions number)
| CallSetCanvasData (data : SetCanvasDataOptions number)
| CallSetCropBoxData (data : SetCropBoxDataOptions number)
| CallGetCroppedCanvas (options : option (GetCroppedCanvasOptions number))
| CallSetAspectRatio (aspectRatio : number)
| CallSetDragMode (mode : DragMode).

Definition exposed_key (c : call) : string :=
  match c with
  | CallReset => "reset"
  | CallClear => "clear"
  | CallInitCrop => "initCrop"
  | CallReplace _ _ => "replace"
  | CallEnable => "enable"
  | CallDisable => "disable"
  | CallDestroy => "destroy"
  | CallMove _ _ => "move"
  | CallMoveTo _ _ => "moveTo"
  | CallZoom _ => "zoom"
  | CallZoomTo _ _ => "zoomTo"
  | CallRotate _ => "rotate"
  | CallRotateTo _ => "rotateTo"
  | CallScaleX _ => "scaleX"
  | CallScaleY _ => "scaleY"
  | CallScale _ _ => "scale"
  | CallGetData _ => "getData"
  | CallGetContainerData => "getContainerData"
  | CallGetImageData => "getImageData"
  | CallGetCanvasData => "getCanvasData"
  | CallGetCropBoxData => "getCropBoxData"
  | CallSetData _ => "setData"
  | CallSetCanvasData _ => "setCanvasData"
  | CallSetCropBoxData _ => "setCropBoxData"
  | CallGetCroppedCanvas _ => "getCroppedCanvas"
  | CallSetAspectRatio _ => "setAspectRatio"
  | CallSetDragMode _ => "setDragMode"
  end.

(** The exposed object binds each key to the function of that name. *)
Definition exec (c : call) : state -> completion value * state :=
  match c with
  | CallReset => reset
  | CallClear => clear
  | CallInitCrop => initCrop
  | CallReplace url onlyColorChanged => replace url onlyColorChanged
  | CallEnable => enable
  | CallDisable => disable
  | CallDestroy => destroy
  | CallMove offsetX offsetY => move offsetX offsetY
  | CallMoveTo x y => moveTo x y
  | CallZoom ratio => zoom ratio
  | CallZoomTo ratio pivot => zoomTo ratio pivot
  | CallRotate degree => rotate degree
  | CallRotateTo degree => rotateTo degree
  | CallScaleX x => scaleX x
  | CallScaleY y => scaleY y
  | CallScale x y => scale x y
  | CallGetData rounded => getData rounded
  | CallGetContainerData => getContainerData
  | CallGetImageData => getImageData
  | CallGetCanvasData => getCanvasData
  | CallGetCropBoxData => getCropBoxData
  | CallSetData data => setData data
  | CallSetCanvasData data => setCanvasData data
  | CallSetCropBoxData data => setCropBoxData data
  | CallGetCroppedCanvas options => getCroppedCanvas options
  | CallSetAspectRatio aspectRatio => setAspectRatio aspectRatio
  | CallSetDragMode mode => setDragMode mode
  end.

(** *** The template *)

Inductive attr :=
| AString (s : string)
| AStyle (css : CSSProperties)
| ACrossorigin (c : option Crossorigin).

Inductive vnode :=
| VNode (tag : string) (attrs : list (string * attr)) (children : list vnode).

Definition tag_of (v : vnode) : string :=
  match v with VNode tag _ _ => tag end.

Definition attrs_of (v : vnode) : list (string * attr) :=
  match v with VNode _ attrs _ => attrs end.

Definition children_of (v : vnode) : list vnode :=
  match v with VNode _ _ children => children end.

(** The value bound to attribute [name], if the node has it. *)
Definition attr_of (name : string) (v : vnode) : option attr :=
  snd <$> List.find (λ kv, String.eqb name kv.1) (attrs_of v).

(** The props as the script destructures them: [src = ''], [alt = 'image']. *)
Definition render (p : Props number) : vnode :=
  let src := default "" (src p) in
  let alt := default "image" (alt p) in
  VNode "div" [("style", AStyle (containerStyle p))]
    [ VNode "img"
        [ ("ref", AString "imageRef");
          ("src", AString src);
          ("alt", AString alt);
          ("style", AStyle (spread {[ "max-width" := "100%" ]} (imgStyle p)));
          ("crossorigin", ACrossorigin (crossorigin p)) ]
        [] ].

(** *** The component in its host *)

(** What can happen to a component instance: the framework mounts it (the
    template ref is bound to what was rendered, then the mounted hook runs)
    or unmounts it (the template ref is cleared; the script registers no
    unmount hook), the host calls an exposed method, the wrapped library
    fires one of its hooks on its own (image loaded, pointer interaction). *)
Inductive input :=
| Mount (el : option element)
| Unmount
| Invoke (c : call)
| Fire (h : hook) (d : value).

Definition bind_ref (el : option element) (mounted : bool) (s : state) : state :=
  {| props := props s; isMounted := mounted; imageRef := el;
     cropper := cropper s; emitted := emitted s; ulog := ulog s |}.

(** A hook fires outside of any method call.  Only a constructed instance
    holds callbacks to fire. *)
Definition fire (h : hook) (d : value) (s : state) : state :=
  match cropper s with
  | Some i =>
      {| props := props s; isMounted := isMounted s; imageRef := imageRef s;
         cropper := cropper s;
         emitted := emitted s ++ deliver (inst_options i) (h, d);
         ulog := ulog s |}
  | None => s
  end.

(** The framework runs the mounted hook of a component instance once. *)
Definition step (i : input) (s : state) : state :=
  match i with
  | Mount el => if isMounted s then s else onMounted (bind_ref el true s)
  | Unmount => bind_ref None (isMounted s) s
  | Invoke c => (exec c s).2
  | Fire h d => fire h d s
  end.

Definition run (tr : list input) (s : state) : state :=
  fold_left (λ s i, step i s) tr s.

(** *** Observations on a run *)

Definition is_new (e : uevent) : bool :=
  match e with UNew _ _ => true | UInvoke _ => false end.

Definition is_destroy_event (e : uevent) : bool :=
  match e with UNew _ _ => false | UInvoke c => is_destroy c end.

(** How many times [new CropperJs] has run. *)
Definition constructions (s : state) : nat :=
  length (List.filter is_new (ulog s)).

(** [destroy] has reached the wrapped instance. *)
Definition destroy_forwarded (s : state) : bool :=
  existsb is_destroy_event (ulog s).

Inductive phase := Unmounted | Mounted | Destroyed.

Definition phase_of (s : state) : phase :=
  match cropper s with
  | None => Unmounted
  | Some _ => if destroy_forwarded s then Destroyed else Mounted
  end.

(** *** The forwarding of a call, described apart from [exec] *)

(** The optional arguments for which the script declares a default value
    ([onlyColorChanged = false], [y = x], [scaleY = scaleX],
    [rounded = false], [options = {}]), filled in. *)
Definition fill_defaults (c : call) : call :=
  match c with
  | CallReplace url o => CallReplace url (Some (default false o))
  | CallMoveTo x y => CallMoveTo x (Some (default x y))
  | CallScale x y => CallScale x (Some (default x y))
  | CallGetData r => CallGetData (Some (default false r))
  | CallGetCroppedCanvas o =>
      CallGetCroppedCanvas (Some (default empty_GetCroppedCanvasOptions o))
  | _ => c
  end.

(** The call leaves out an optional argument that has a declared default. *)
Definition omits_defaulted (c : call) : bool :=
  match c with
  | CallReplace _ None | CallMoveTo _ None | CallScale _ None
  | CallGetData None | CallGetCroppedCanvas None => true
  | _ => false
  end.

(** The methods written with [?.]; the others are written with [!.]. *)
Definition guarded (c : call) : bool :=
  match c with
  | CallMove _ _ | CallSetData _ | CallSetCanvasData _ | CallSetCropBoxData _
  | CallGetCroppedCanvas _ | CallSetAspectRatio _ | CallSetDragMode _ => false
  | _ => true
  end.

(** The pass-through of the specification: the method of the wrapped
    instance that goes by the name of the exposed operation ([crop] for
    [initCrop]), with the caller's arguments as they are, an omitted one
    omitted. *)
Definition spec_passthrough (c : call) : ucall number :=
  match c with
  | CallReset => UReset
  | CallClear => UClear
  | CallInitCrop => UCrop
  | CallReplace url o => UReplace url o
  | CallEnable => UEnable
  | CallDisable => UDisable
  | CallDestroy => UDestroy
  | CallMove x y => UMove x y
  | CallMoveTo x y => UMoveTo x y
  | CallZoom r => UZoom r
  | CallZoomTo r p => UZoomTo r p
  | CallRotate d => URotate d
  | CallRotateTo d => URotateTo d
  | CallScaleX x => UScaleX x
  | CallScaleY y => UScaleY y
  | CallScale x y => UScale x y
  | CallGetData r => UGetData r
  | CallGetContainerData => UGetContainerData
  | CallGetImageData => UGetImageData
  | CallGetCanvasData => UGetCanvasData
  | CallGetCropBoxData => UGetCropBoxData
  | CallSetData d => USetData d
  | CallSetCanvasData d => USetCanvasData d
  | CallSetCropBoxData d => USetCropBoxData d
  | CallGetCroppedCanvas o => UGetCroppedCanvas o
  | CallSetAspectRatio a => USetAspectRatio a
  | CallSetDragMode m => USetDragMode m
  end.

(** *** What every run maintains

    The props never change; every emission so far carries one of the six
    signal names and no argument; an empty holder means nothing was asked of
    the library yet; a filled holder means the mounted hook has run, the
    instance was constructed once, with the options literal of [onMounted],
    and that construction is on the trace. *)
Definition invariant (p : Props number) (s : state) : Prop :=
  props s = p ∧
  Forall (λ e, ev_name e ∈ spec_signals ∧ ev_args e = []) (emitted s) ∧
  match cropper s with
  | None => ulog s = []
  | Some i =>
      isMounted s = true ∧
      inst_options i = cropper_options (aspectRatio p) ∧
      constructions s = 1 ∧
      ulog s !! 0 = Some (UNew (inst_element i) (inst_options i))
  end.

End Facade.

(** ** A stand-in library

    A minimal library to run the facade on concrete inputs: numbers are
    integers, elements are numbered, an instance records the calls it
    receives, every method answers with its own name, and the two zoom
    methods fire the [zoom] hook while they run. *)
Definition probe_run (c : ucall Z) (log : list (ucall Z))
  : reaction string (list (ucall Z)) :=
  {| r_result := LibReturn (Lib (ucall_name c));
     r_state := (log ++ [c])%list;
     r_fired := match c with
                | UZoom _ | UZoomTo _ _ => [(HZoom, "zoom-detail")]
                | _ => []
                end |}.

Definition probe : CropperLib :=
  {| number := Z; element := nat; value := string; Inst := list (ucall Z);
     lib_new := λ _ _, [];
     lib_run := probe_run |}.

Canonical Structure probe.

Definition probe_props : Props Z :=
  {| containerStyle := {[ "width" := "400px" ]};
     src := Some "cat.png"; alt := None;
     imgStyle := ∅;
     crossorigin := Some Anonymous;
     aspectRatio := Some 2%Z |}.

(** The stand-in component right after [setup]. *)
Definition probe_fresh : @state probe := setup (L:=probe) probe_props.

(** The stand-in component after a mount that rendered element 0. *)
Definition probe_mounted : @state probe :=
  run (L:=probe) [Mount (Some 0)] probe_fresh.

(** The instance that mount constructs. *)
Definition probe_instance : @instance probe :=
  {| inst_element := 0;
     inst_options := cropper_options (L:=probe) (Some 2%Z);
     inst_state := [] |}.

(** The stand-in component after a mount and a [destroy()]. *)
Definition probe_destroyed : @state probe :=
  run (L:=probe) [Mount (Some 0); Invoke CallDestroy] probe_fresh.

(** ** Reading a run back *)

Section Traces.

Context {L : CropperLib}.

(** The framework's own inputs, as opposed to what the host and the library
    do to a component instance. *)
Definition is_lifecycle (inp : input) : bool :=
  match inp with
  | Mount _ | Unmount => true
  | Invoke _ | Fire _ _ => false
  end.

(** The host's method calls in a run, in order. *)
Definition calls_of (tr : list input) : list call :=
  omap (λ inp, match inp with Invoke c => Some c | _ => None end) tr.

(** What the first mount of a run rendered, if the run has a mount. *)
Fixpoint first_mount (tr : list input) : option (option element) :=
  match tr with
  | [] => None
  | Mount el :: _ => Some el
  | _ :: tr => first_mount tr
  end.

(** The three states of the specification, told apart the way the
    specification does: [unmounted] (no instance), [mounted] (instance live,
    methods forward), [destroyed] (instance released, methods no-op).
    Methods forward when the holder is filled; an empty holder is the
    released one if an instance has been constructed before. *)
Inductive spec_state := SUnmounted | SMounted | SDestroyed.

Definition spec_state_of (s : state) : spec_state :=
  match cropper s with
  | Some _ => SMounted
  | None => if decide (constructions s = 0) then SUnmounted else SDestroyed
  end.

End Traces.

(** ** Properties *)

(** Settles a decidable statement about concrete names by evaluation. *)
Ltac decide_by_compute :=
  apply (bool_decide_unpack _); vm_compute; exact I.

Section Properties.

Context {L : CropperLib}.

Implicit Types (s : state) (i : instance) (c : call) (p : Props number).

(** *** The options literal *)

Lemma cropper_options_dom (a : option number) :
  dom (cropper_options a) =
    {[ "aspectRatio" ]} ∪ list_to_set (hook_key <$> all_hooks).
Proof. vm_compute. reflexivity. Qed.

Lemma cropper_options_hook (a : option number) (h : hook) :
  cropper_options a !! hook_key h = Some (OptCallback (λ _, emit (signal_of h))).
Proof. destruct h; vm_compute; reflexivity. Qed.

Lemma deliver_cropper_options (a : option number) (h : hook) (d : value) :
  deliver (cropper_options a) (h, d) = [Emission (signal_of h) []].
Proof. unfold deliver. simpl. rewrite cropper_options_hook. reflexivity. Qed.

Lemma deliver_all_cropper_options (a : option number) (fs : list (hook * value)) :
  concat (deliver (cropper_options a) <$> fs) =
    (λ f, Emission (signal_of f.1) []) <$> fs.
Proof.
  induction fs as [|[h d] fs IH]; [reflexivity|].
  rewrite !fmap_cons. simpl concat.
  rewrite deliver_cropper_options, IH. reflexivity.
Qed.

Lemma signal_of_spec_signals (h : hook) : signal_of h ∈ spec_signals.
Proof. destruct h; unfold spec_signals; set_solver. Qed.

(** *** One call *)

Lemma exec_absent c s :
  cropper s = None →
  exec c s =
    (if guarded c then Return Undefined
     else Throw (TypeError_reading (exposed_key c)), s).
Proof.
  intros H.
  destruct c; cbn -[default];
    unfold reset, clear, initCrop, replace, enable, disable, destroy, move,
      moveTo, zoom, zoomTo, rotate, rotateTo, scaleX, scaleY, scale, getData,
      setData, getContainerData, getImageData, getCanvasData, setCanvasData,
      getCropBoxData, setCropBoxData, getCroppedCanvas, setAspectRatio,
      setDragMode, optional_chain, non_null_assert;
    rewrite H; reflexivity.
Qed.

Lemma exec_live c s i :
  cropper s = Some i →
  exec c s = forward (spec_passthrough (fill_defaults c)) i s.
Proof.
  intros H.
  destruct c; cbn -[default];
    unfold reset, clear, initCrop, replace, enable, disable, destroy, move,
      moveTo, zoom, zoomTo, rotate, rotateTo, scaleX, scaleY, scale, getData,
      setData, getContainerData, getImageData, getCanvasData, setCanvasData,
      getCropBoxData, setCropBoxData, getCroppedCanvas, setAspectRatio,
      setDragMode, optional_chain, non_null_assert;
    rewrite H; reflexivity.
Qed.

Lemma fill_defaults_supplied c : omits_defaulted c = false → fill_defaults c = c.
Proof. destruct c as [| | |? []| | | | |? []| | | | | | |? []|[]| | | | | | | |[]| |]; simpl; done. Qed.

Lemma ucall_name_passthrough c :
  ucall_name (spec_passthrough (fill_defaults c)) =
    match c with CallInitCrop => "crop" | _ => exposed_key c end.
Proof. destruct c; reflexivity. Qed.

Lemma is_destroy_passthrough c :
  is_destroy (spec_passthrough (fill_defaults c)) = true ↔ c = CallDestroy.
Proof. destruct c; simpl; split; congruence. Qed.

Lemma constructions_app s (l : list uevent) :
  length (List.filter is_new (ulog s ++ l)) =
    constructions s + length (List.filter is_new l).
Proof. unfold constructions. rewrite List.filter_app, length_app. reflexivity. Qed.

Lemma forward_constructions (u : ucall number) i s :
  constructions (forward u i s).2 = constructions s.
Proof. unfold constructions at 1. simpl. rewrite constructions_app. simpl. lia. Qed.

Lemma forward_destroy_forwarded (u : ucall number) i s :
  destroy_forwarded (forward u i s).2 = destroy_forwarded s || is_destroy u.
Proof.
  unfold destroy_forwarded. simpl. rewrite existsb_app. simpl.
  rewrite orb_false_r. reflexivity.
Qed.

(** *** The invariant *)

Lemma invariant_setup p : invariant p (setup p).
Proof. unfold invariant. simpl. auto. Qed.

Lemma emissions_of_hooks_ok (fs : list (hook * value)) :
  Forall (λ e : emission value, ev_name e ∈ spec_signals ∧ ev_args e = [])
    ((λ f, Emission (signal_of f.1) []) <$> fs).
Proof.
  apply Forall_fmap, Forall_forall. intros [h d] _. simpl.
  split; [apply signal_of_spec_signals | reflexivity].
Qed.

Lemma invariant_forward p s i (u : ucall number) :
  invariant p s → cropper s = Some i → invariant p (forward u i s).2.
Proof.
  intros (Hp & Hem & Hc) Hi. rewrite Hi in Hc.
  destruct Hc as (Hm & Ho & Hn & H0).
  split; [exact Hp|]. split.
  - simpl. rewrite Ho, deliver_all_cropper_options.
    apply Forall_app. split; [exact Hem | apply emissions_of_hooks_ok].
  - change (cropper (forward u i s).2)
      with (Some (Instance (inst_element i) (inst_options i)
                    (r_state (lib_run u (inst_state i))))).
    cbv beta iota. split; [exact Hm|]. split; [exact Ho|]. split.
    + rewrite forward_constructions. exact Hn.
    + simpl. rewrite lookup_app_l; [exact H0|].
      apply lookup_lt_is_Some. eauto.
Qed.

Lemma invariant_step p (inp : input) s : invariant p s → invariant p (step inp s).
Proof.
  intros Hinv. destruct inp as [el| |c|h d]; simpl.
  - destruct (isMounted s) eqn:Hm; [exact Hinv|].
    destruct Hinv as (Hp & Hem & Hc).
    destruct (cropper s) as [i|] eqn:Hi.
    { destruct Hc as (Hm' & _). congruence. }
    unfold onMounted. simpl. destruct el as [e|].
    + unfold invariant. simpl. rewrite Hc, Hp. simpl. repeat split; auto.
    + unfold invariant. simpl. rewrite Hi. auto.
  - exact Hinv.
  - destruct (cropper s) as [i|] eqn:Hi.
    + rewrite (exec_live c s i Hi). apply invariant_forward; assumption.
    + rewrite (exec_absent c s Hi). exact Hinv.
  - unfold fire. destruct (cropper s) as [i|] eqn:Hi; [|exact Hinv].
    destruct Hinv as (Hp & Hem & Hc). rewrite Hi in Hc.
    destruct Hc as (Hm & Ho & Hn & H0).
    unfold invariant. simpl. split; [exact Hp|]. split; [|auto].
    rewrite Ho, deliver_cropper_options. apply Forall_app. split; [exact Hem|].
    apply Forall_singleton. simpl. split; [apply signal_of_spec_signals | reflexivity].
Qed.

Lemma invariant_run_from p (tr : list input) s :
  invariant p s → invariant p (run tr s).
Proof.
  revert s. induction tr as [|inp tr IH]; intros s H; [exact H|].
  simpl. apply IH, invariant_step, H.
Qed.

Lemma invariant_run p (tr : list input) : invariant p (run tr (setup p)).
Proof. apply invariant_run_from, invariant_setup. Qed.

Lemma invariant_constructions p s :
  invariant p s →
  constructions s = match cropper s with None => 0 | Some _ => 1 end.
Proof.
  intros (_ & _ & Hc). destruct (cropper s).
  - tauto.
  - unfold constructions. rewrite Hc. reflexivity.
Qed.

(** The holder, once filled, keeps pointing to the instance it was given. *)
Lemma step_keeps_holder p (inp : input) s i :
  invariant p s → cropper s = Some i →
  ∃ i', cropper (step inp s) = Some i' ∧
        inst_element i' = inst_element i ∧ inst_options i' = inst_options i.
Proof.
  intros Hinv Hi. pose proof Hinv as (_ & _ & Hc). rewrite Hi in Hc.
  destruct Hc as (Hm & _).
  destruct inp as [el| |c|h d]; simpl.
  - rewrite Hm. eauto.
  - eauto.
  - rewrite (exec_live c s i Hi). simpl. eauto.
  - unfold fire. rewrite Hi. simpl. eauto.
Qed.

Lemma run_keeps_holder p (tr : list input) s i :
  invariant p s → cropper s = Some i →
  ∃ i', cropper (run tr s) = Some i' ∧
        inst_element i' = inst_element i ∧ inst_options i' = inst_options i.
Proof.
  revert s i. induction tr as [|inp tr IH]; intros s i Hinv Hi; [eauto|].
  destruct (step_keeps_holder p inp s i Hinv Hi) as (i1 & H1 & He & Ho).
  destruct (IH (step inp s) i1 (invariant_step p inp s Hinv) H1)
    as (i2 & H2 & He2 & Ho2).
  exists i2. simpl. split; [exact H2|]. split; congruence.
Qed.

(** *** The claims *)

(** C3.  On a facade whose holder is filled, the options the instance was
    constructed with, which are the first thing on the trace to the library,
    carry a callback under exactly the six keys ready, cropstart, cropmove,
    cropend, crop and zoom; and every firing of a hook, be it on the
    library's own initiative or while a forwarded method runs, adds exactly
    one emission, named after the hook by the table ready->ready,
    cropstart->start, cropmove->move, cropend->end, crop->crop, zoom->zoom,
    with no argument whatever the detail of the underlying event. *)
Theorem C3_callbacks_reemitted p (tr : list input) i (h : hook) (d : value) c :
  cropper (run tr (setup p)) = Some i →
  (∀ k, (∃ f, inst_options i !! k = Some (OptCallback f))
        ↔ k ∈ hook_key <$> all_hooks)
  ∧ ulog (run tr (setup p)) !! 0
      = Some (UNew (inst_element i) (inst_options i))
  ∧ emitted (fire h d (run tr (setup p)))
      = emitted (run tr (setup p)) ++ [Emission (signal_of h) []]
  ∧ emitted (exec c (run tr (setup p))).2
      = emitted (run tr (setup p))
        ++ ((λ f, Emission (signal_of f.1) [])
              <$> r_fired (lib_run (spec_passthrough (fill_defaults c))
                             (inst_state i))).
Proof.
  intros Hi. pose proof (invariant_run p tr) as (_ & _ & Hc).
  rewrite Hi in Hc. destruct Hc as (_ & Ho & _ & H0).
  split; [|split; [exact H0|split]].
  - intros k. rewrite Ho. split.
    + intros (f & Hf).
      assert (Hd : k ∈ dom (cropper_options (aspectRatio p)))
        by (apply elem_of_dom; eauto).
      rewrite cropper_options_dom in Hd.
      apply elem_of_union in Hd as [Hd|Hd].
      * apply elem_of_singleton in Hd. subst k. vm_compute in Hf. discriminate.
      * apply elem_of_list_to_set in Hd. exact Hd.
    + intros Hk. apply list_elem_of_fmap in Hk as (h' & -> & _).
      rewrite cropper_options_hook. eauto.
  - unfold fire. rewrite Hi. simpl. rewrite Ho, deliver_cropper_options.
    reflexivity.
  - rewrite (exec_live c _ i Hi). simpl.
    rewrite Ho, deliver_all_cropper_options. reflexivity.
Qed.

(** C10.  [result] is among the declared events, yet in every run every
    emission carries one of the names ready, start, move, end, crop, zoom,
    so none is a [result]. *)
Theorem C10_result_never_emitted p (tr : list input) :
  "result" ∈ declared_emits
  ∧ Forall (λ e, ev_name e ∈ spec_signals) (emitted (run tr (setup p)))
  ∧ Forall (λ e, ev_name e ≠ "result") (emitted (run tr (setup p))).
Proof.
  pose proof (invariant_run p tr) as (_ & Hem & _).
  split; [unfold declared_emits; set_solver|]. split.
  - eapply Forall_impl; [exact Hem|]. intros e [H _]. exact H.
  - eapply Forall_impl; [exact Hem|]. intros e [Hin _] Heq.
    rewrite Heq in Hin. unfold spec_signals in Hin.
    repeat (apply elem_of_cons in Hin as [Hin|Hin]; [discriminate|]).
    by apply elem_of_nil in Hin.
Qed.

Lemma holder_empty_once_hook_ran (tr : list input) s :
  cropper s = None → isMounted s = true → cropper (run tr s) = None.
Proof.
  revert s. induction tr as [|inp tr IH]; intros s Hc Hm; [exact Hc|].
  simpl. destruct inp as [e| |c|h d]; simpl.
  - rewrite Hm. apply IH; assumption.
  - apply IH; assumption.
  - rewrite (exec_absent c s Hc). apply IH; assumption.
  - unfold fire. rewrite Hc. apply IH; assumption.
Qed.

(** The holder at the end of a run is decided by the first mount of the
    run. *)
Lemma holder_by_first_mount p (tr : list input) s :
  invariant p s → cropper s = None → isMounted s = false →
  match first_mount tr with
  | Some (Some el) =>
      ∃ i, cropper (run tr s) = Some i ∧ inst_element i = el
  | _ => cropper (run tr s) = None
  end.
Proof.
  revert s. induction tr as [|inp tr IH]; intros s Hinv Hc Hm; [exact Hc|].
  destruct inp as [el| |c|h d]; simpl.
  - rewrite Hm. destruct el as [e|].
    + pose proof (invariant_step p (Mount (Some e)) s Hinv) as Hinv'.
      simpl in Hinv'. rewrite Hm in Hinv'.
      destruct (run_keeps_holder p tr _ _ Hinv' eq_refl) as (i & Hi & He & _).
      eauto.
    + apply holder_empty_once_hook_ran; [exact Hc | reflexivity].
  - apply (IH (step Unmount s)); [apply invariant_step, Hinv | exact Hc | exact Hm].
  - rewrite (exec_absent c s Hc). apply IH; assumption.
  - unfold fire. rewrite Hc. apply IH; assumption.
Qed.

(** C7, as the code has it.  The facade has one transition only, from
    unmounted to mounted.  The wrapped instance is constructed exactly once
    in a run whose first mount rendered an image element, with that element,
    and never in any other run; the holder is empty before, filled after,
    and once filled it keeps the instance of that element and those options
    whatever follows.  [destroy()] on a filled holder hands the call to the
    instance and leaves the holder filled with it, in the state the
    library's [destroy] left it: the state in which the instance is released
    is never reached. *)
Theorem C7_one_transition p (tr tr' : list input) :
  spec_state_of (setup p) = SUnmounted
  ∧ match first_mount tr with
    | Some (Some el) =>
        (∃ i, cropper (run tr (setup p)) = Some i ∧ inst_element i = el)
        ∧ constructions (run tr (setup p)) = 1
        ∧ spec_state_of (run tr (setup p)) = SMounted
    | _ =>
        cropper (run tr (setup p)) = None
        ∧ constructions (run tr (setup p)) = 0
        ∧ spec_state_of (run tr (setup p)) = SUnmounted
    end
  ∧ (∀ i, cropper (run tr (setup p)) = Some i →
       (∃ i', cropper (run tr' (run tr (setup p))) = Some i'
              ∧ inst_element i' = inst_element i
              ∧ inst_options i' = inst_options i)
       ∧ constructions (run tr' (run tr (setup p))) = 1
       ∧ (destroy (run tr (setup p))).1
           = propagate (r_result (lib_run UDestroy (inst_state i)))
       ∧ cropper (destroy (run tr (setup p))).2
           = Some (Instance (inst_element i) (inst_options i)
                     (r_state (lib_run UDestroy (inst_state i))))
       ∧ ulog (destroy (run tr (setup p))).2
           = ulog (run tr (setup p)) ++ [UInvoke UDestroy])
  ∧ spec_state_of (run tr (setup p)) ≠ SDestroyed.
Proof.
  pose proof (invariant_run p tr) as Hinv.
  pose proof (invariant_constructions p _ Hinv) as Hn.
  pose proof (holder_by_first_mount p tr (setup p) (invariant_setup p)
                eq_refl eq_refl) as Hfm.
  split; [reflexivity|]. split; [|split].
  - unfold spec_state_of. rewrite Hn.
    destruct (first_mount tr) as [[el|]|].
    + destruct Hfm as (i & Hi & He). rewrite Hi. eauto.
    + rewrite Hfm. auto.
    + rewrite Hfm. auto.
  - intros i Hi.
    destruct (run_keeps_holder p tr' _ i Hinv Hi) as (i' & Hi' & He & Ho).
    split; [eauto|]. split.
    + rewrite (invariant_constructions p _ (invariant_run_from p tr' _ Hinv)).
      rewrite Hi'. reflexivity.
    + unfold destroy, optional_chain. rewrite Hi. auto.
  - unfold spec_state_of. rewrite Hn.
    destruct (cropper (run tr (setup p))); [discriminate|].
    simpl. discriminate.
Qed.

(** C1, where the code departs from it.  On an empty holder the methods
    written with [!.] ([move], [setData], [setCanvasData], [setCropBoxData],
    [getCroppedCanvas], [setAspectRatio], [setDragMode]) do not return an
    absent result: each throws the [TypeError] of reading its name on
    [undefined], and leaves the facade as it was. *)
Theorem C1_unguarded_call_raises c s :
  cropper s = None → guarded c = false →
  exec c s = (Throw (TypeError_reading (exposed_key c)), s).
Proof. intros Hs Hg. rewrite (exec_absent c s Hs), Hg. reflexivity. Qed.

(** The part of C1 the code keeps: on an empty holder the twenty methods
    written with [?.] return [undefined] and leave the facade as it was. *)
Lemma guarded_call_absent c s :
  cropper s = None → guarded c = true → exec c s = (Return Undefined, s).
Proof. intros Hs Hg. rewrite (exec_absent c s Hs), Hg. reflexivity. Qed.

(** Before the mount, and after a mount that rendered no image element, the
    holder is empty. *)
Lemma holder_empty_until_mounted p (tr : list input) :
  cropper (setup p) = None
  ∧ cropper (run (Mount None :: tr) (setup p)) = None.
Proof.
  split; [reflexivity|].
  assert (H : ∀ s, cropper s = None → isMounted s = true →
                   cropper (run tr s) = None ∧ isMounted (run tr s) = true).
  { induction tr as [|inp tr IH]; intros s Hc Hm; [auto|].
    simpl. apply IH.
    - destruct inp as [e| |c|h d]; simpl.
      + rewrite Hm. exact Hc.
      + exact Hc.
      + rewrite (exec_absent c s Hc). exact Hc.
      + unfold fire. rewrite Hc. exact Hc.
    - destruct inp as [e| |c|h d]; simpl.
      + rewrite Hm. exact Hm.
      + exact Hm.
      + rewrite (exec_absent c s Hc). exact Hm.
      + unfold fire. rewrite Hc. exact Hm. }
  apply (H (step (Mount None) (setup p))); reflexivity.
Qed.

Lemma propagate_not_TypeError (r : lib_result value) (t : string) :
  propagate r ≠ Throw (TypeError_reading t).
Proof. destruct r; discriminate. Qed.

Lemma optional_chain_not_TypeError (u : ucall number) s (t : string) :
  (optional_chain u s).1 ≠ Throw (TypeError_reading t).
Proof.
  unfold optional_chain. destruct (cropper s); simpl.
  - apply propagate_not_TypeError.
  - discriminate.
Qed.

(** C8, as the code has it.  Neither of two [destroy()] calls in a row
    throws the facade's own [TypeError].  On an empty holder a call returns
    [undefined] and changes nothing.  On a filled holder both calls are
    handed to the same instance, the second on the state the first left it
    in: each returns or throws what the library's [destroy] does there, the
    holder stays filled with the instance in the state the library left it,
    the callbacks the library fires meanwhile emit their signals, and the
    two requests are on the trace. *)
Theorem C8_destroy_twice_forwards_twice s :
  (∀ t, (destroy s).1 ≠ Throw (TypeError_reading t))
  ∧ (∀ t, (destroy (destroy s).2).1 ≠ Throw (TypeError_reading t))
  ∧ match cropper s with
    | None =>
        destroy s = (Return Undefined, s)
        ∧ destroy (destroy s).2 = (Return Undefined, s)
    | Some i =>
        (destroy s).1 = propagate (r_result (lib_run UDestroy (inst_state i)))
        ∧ cropper (destroy s).2
            = Some (Instance (inst_element i) (inst_options i)
                      (r_state (lib_run UDestroy (inst_state i))))
        ∧ (destroy (destroy s).2).1
            = propagate (r_result (lib_run UDestroy
                           (r_state (lib_run UDestroy (inst_state i)))))
        ∧ cropper (destroy (destroy s).2).2
            = Some (Instance (inst_element i) (inst_options i)
                      (r_state (lib_run UDestroy
                         (r_state (lib_run UDestroy (inst_state i))))))
        ∧ ulog (destroy (destroy s).2).2
            = ulog s ++ [UInvoke UDestroy; UInvoke UDestroy]
        ∧ emitted (destroy (destroy s).2).2
            = emitted s
              ++ concat (deliver (inst_options i)
                           <$> r_fired (lib_run UDestroy (inst_state i)))
              ++ concat (deliver (inst_options i)
                           <$> r_fired (lib_run UDestroy
                                 (r_state (lib_run UDestroy (inst_state i)))))
    end.
Proof.
  split; [intros t; apply optional_chain_not_TypeError|].
  split; [intros t; apply optional_chain_not_TypeError|].
  unfold destroy, optional_chain. destruct (cropper s) as [i|] eqn:Hi.
  - cbn -[lib_run deliver]. rewrite <- !app_assoc. repeat split; reflexivity.
  - cbn. rewrite Hi. split; reflexivity.
Qed.

(** C2, as the code has it.  Once [destroy()] has been called on a facade
    whose holder is filled, the holder stays filled whatever happens next: it
    points to the instance constructed with the same element and the same
    options, no further instance is ever constructed, and every exposed
    method called from then on reaches that instance and hands back what the
    instance returns or throws. *)
Theorem C2_destroy_keeps_instance p (tr tr' : list input) i c :
  cropper (run tr (setup p)) = Some i →
  ∃ i',
    cropper (run tr' (destroy (run tr (setup p))).2) = Some i'
    ∧ inst_element i' = inst_element i
    ∧ inst_options i' = inst_options i
    ∧ constructions (run tr' (destroy (run tr (setup p))).2)
        = constructions (run tr (setup p))
    ∧ (exec c (run tr' (destroy (run tr (setup p))).2)).1
        = propagate (r_result (lib_run (spec_passthrough (fill_defaults c))
                                 (inst_state i')))
    ∧ ulog (exec c (run tr' (destroy (run tr (setup p))).2)).2
        = ulog (run tr' (destroy (run tr (setup p))).2)
          ++ [UInvoke (spec_passthrough (fill_defaults c))].
Proof.
  intros Hi. pose proof (invariant_run p tr) as Hinv.
  set (s := run tr (setup p)) in *.
  pose proof (invariant_step p (Invoke CallDestroy) s Hinv) as Hinv1.
  change (step (Invoke CallDestroy) s) with (destroy s).2 in Hinv1.
  destruct (step_keeps_holder p (Invoke CallDestroy) s i Hinv Hi)
    as (i1 & H1 & He1 & Ho1).
  change (step (Invoke CallDestroy) s) with (destroy s).2 in H1.
  destruct (run_keeps_holder p tr' _ i1 Hinv1 H1) as (i2 & H2 & He2 & Ho2).
  pose proof (invariant_run_from p tr' _ Hinv1) as Hinv2.
  exists i2. split; [exact H2|]. split; [congruence|]. split; [congruence|].
  split.
  - rewrite (invariant_constructions p _ Hinv2), (invariant_constructions p _ Hinv).
    rewrite H2, Hi. reflexivity.
  - rewrite (exec_live c _ i2 H2). split; reflexivity.
Qed.

(** C4, as the code has it.  On a filled holder an exposed method calls the
    method of the wrapped instance that the specification names for it, with
    the caller's arguments in their order once every omitted optional
    argument that has a declared default is replaced by that default
    ([false] for [onlyColorChanged] and [rounded], the first argument for
    the second of [moveTo] and [scale], the empty object for the options of
    [getCroppedCanvas]); an optional argument without a default is forwarded
    as the caller gave it.  Nothing else is asked of the instance, and what
    the instance returns or throws comes back unchanged.  The method called
    has the name of the exposed one, except that [initCrop] calls [crop]. *)
Theorem C4_forwarding_with_defaults s i c :
  cropper s = Some i →
  exec c s = forward (spec_passthrough (fill_defaults c)) i s
  ∧ (exec c s).1
      = propagate (r_result (lib_run (spec_passthrough (fill_defaults c))
                               (inst_state i)))
  ∧ ulog (exec c s).2 = ulog s ++ [UInvoke (spec_passthrough (fill_defaults c))]
  ∧ (omits_defaulted c = false → fill_defaults c = c)
  ∧ ucall_name (spec_passthrough (fill_defaults c))
      = match c with CallInitCrop => "crop" | _ => exposed_key c end.
Proof.
  intros Hi. rewrite (exec_live c s i Hi).
  split; [reflexivity|]. split; [reflexivity|]. split; [reflexivity|].
  split; [apply fill_defaults_supplied | apply ucall_name_passthrough].
Qed.

Lemma cropper_options_fields (a : option number) (k : string) :
  k ∈ dom (cropper_options a) → k ∈ Options_fields.
Proof.
  rewrite cropper_options_dom. intros Hk.
  assert (Hsub : ({[ "aspectRatio" ]} ∪ list_to_set (hook_key <$> all_hooks)
                  : gset string) ⊆ list_to_set Options_fields)
    by (decide_by_compute).
  apply Hsub in Hk. apply elem_of_list_to_set in Hk. exact Hk.
Qed.

(** C5, as the code has it.  The options literal handed to the constructor
    at mount has seven keys: [aspectRatio], bound to the prop as it is, and
    the six callback slots ready, cropstart, cropmove, cropend, crop and
    zoom, each bound to a callback.  All seven are fields of [Options], and
    no other key is present. *)
Theorem C5_options_forwarded (a : option number) (el : element) s :
  dom (cropper_options a)
    = {[ "aspectRatio" ]} ∪ list_to_set (hook_key <$> all_hooks)
  ∧ size (dom (cropper_options a)) = 7
  ∧ size (dom (cropper_options a) ∖ {[ "aspectRatio" ]}) = 6
  ∧ cropper_options a !! "aspectRatio" = Some (OptNumber a)
  ∧ (∀ h, ∃ f, cropper_options a !! hook_key h = Some (OptCallback f))
  ∧ (∀ k, k ∈ dom (cropper_options a) → k ∈ Options_fields)
  ∧ ulog (onMounted (bind_ref (Some el) true s))
      = ulog s ++ [UNew el (cropper_options (aspectRatio (props s)))].
Proof.
  split; [apply cropper_options_dom|].
  split; [vm_compute; reflexivity|].
  split; [vm_compute; reflexivity|].
  split; [vm_compute; reflexivity|].
  split; [intros h; rewrite cropper_options_hook; eauto|].
  split; [apply cropper_options_fields | reflexivity].
Qed.

(** C6, as the code has it.  The exposed object has twenty-seven keys, all
    different: the forwarding set of the specification with [initCrop] in
    the place of [crop], and [setData] besides.  Every key but [initCrop]
    is the name of a method of the wrapped instance and calls the method of
    that name; [initCrop] calls [crop]; so the twenty-seven methods of the
    wrapped instance are all covered. *)
Theorem C6_exposed_names c :
  (list_to_set defineExpose_keys : gset string)
    = {[ "initCrop"; "setData" ]} ∪ (list_to_set spec_forwarding_set ∖ {[ "crop" ]})
  ∧ NoDup defineExpose_keys
  ∧ length defineExpose_keys = 27
  ∧ exposed_key c ∈ defineExpose_keys
  ∧ ucall_name (spec_passthrough c)
      = match c with CallInitCrop => "crop" | _ => exposed_key c end
  ∧ ({[ "crop" ]} ∪ (list_to_set defineExpose_keys ∖ {[ "initCrop" ]}) : gset string)
      = list_to_set Cropper_methods.
Proof.
  split; [vm_compute; reflexivity|].
  split; [decide_by_compute|].
  split; [reflexivity|].
  split; [destruct c; decide_by_compute|].
  split; [destruct c; reflexivity | vm_compute; reflexivity].
Qed.

(** C9, as the code has it.  The rendered output is one [div] whose only
    attribute is the style [containerStyle], wrapping exactly one childless
    [img].  The [crossorigin] of the image is the prop as it is; its [src]
    and [alt] are the props, with the empty string and ["image"] standing in
    for an absent one; its style is [imgStyle] laid over the entry
    [max-width: 100%], so every entry of [imgStyle] is there unchanged and
    [max-width] is [100%] unless [imgStyle] sets it. *)
Theorem C9_rendered_output p :
  tag_of (render p) = "div"
  ∧ attrs_of (render p) = [("style", AStyle (containerStyle p))]
  ∧ ∃ img css,
      children_of (render p) = [img]
      ∧ tag_of img = "img"
      ∧ children_of img = []
      ∧ attr_of "src" img = Some (AString (default "" (src p)))
      ∧ attr_of "alt" img = Some (AString (default "image" (alt p)))
      ∧ attr_of "crossorigin" img = Some (ACrossorigin (crossorigin p))
      ∧ attr_of "style" img = Some (AStyle css)
      ∧ css !! "max-width" = Some (default "100%" (imgStyle p !! "max-width"))
      ∧ ∀ k, k ≠ "max-width" → css !! k = imgStyle p !! k.
Proof.
  split; [reflexivity|]. split; [reflexivity|].
  eexists _, _. repeat (split; [reflexivity|]). unfold spread. split.
  - rewrite lookup_union, lookup_singleton_eq.
    destruct (imgStyle p !! "max-width"); reflexivity.
  - intros k Hk. rewrite lookup_union, lookup_singleton_ne by congruence.
    destruct (imgStyle p !! k); reflexivity.
Qed.

End Properties.

(** ** The claims on concrete inputs *)

(** C1 at [move(1)] called before the mount: a [TypeError], not
    [undefined]. *)
Lemma C1_move_before_mount :
  (cropper probe_fresh = None ∧ guarded (L:=probe) (CallMove 1%Z None) = false)
  ∧ exec (CallMove 1%Z None) probe_fresh
      = (Throw (TypeError_reading "move"), probe_fresh).
Proof.
  split; [split; reflexivity|].
  exact (C1_unguarded_call_raises (L:=probe) (CallMove 1%Z None) probe_fresh
           eq_refl eq_refl).
Defined.

(** C2 fails as stated: after mount and [destroy()], [getData()] does not
    return an absent result; it returns what the instance answers. *)
Lemma C2_counterexample :
  (exec (CallGetData None) probe_destroyed).1 ≠ Return Undefined.
Proof. vm_compute. discriminate. Qed.

(** That call did reach the instance constructed at mount. *)
Example getData_after_destroy_reaches_instance :
  inst_state <$> cropper (exec (CallGetData None) probe_destroyed).2
    = Some [UDestroy; UGetData (Some false)].
Proof. reflexivity. Qed.

(** C2 as amended, on the stand-in: mounted, destroyed, then [getData()] and
    a second mount attempt; the holder still has the instance of element 0. *)
Lemma C2_witness :
  cropper (run [Mount (Some 0)] (setup (L:=probe) probe_props))
    = Some probe_instance
  ∧ ∃ i', cropper (run [Invoke (CallGetData None); Mount (Some 1)]
                     (destroy (run [Mount (Some 0)] (setup probe_props))).2)
            = Some i'
          ∧ inst_element i' = 0.
Proof.
  split; [reflexivity|].
  destruct (C2_destroy_keeps_instance (L:=probe) probe_props [Mount (Some 0)]
              [Invoke (CallGetData None); Mount (Some 1)] probe_instance
              CallReset eq_refl) as (i' & Hc & He & _).
  exists i'. split; [exact Hc | exact He].
Defined.

(** C3 on the stand-in: a [cropstart] fired after mount adds the emission
    [start] and nothing else. *)
Lemma C3_witness :
  cropper (run [Mount (Some 0)] (setup (L:=probe) probe_props))
    = Some probe_instance
  ∧ emitted (fire HCropstart "pointerdown"
               (run [Mount (Some 0)] (setup probe_props)))
      = emitted (run [Mount (Some 0)] (setup probe_props))
        ++ [Emission "start" []].
Proof.
  split; [reflexivity|].
  exact (proj1 (proj2 (proj2
    (C3_callbacks_reemitted (L:=probe) probe_props [Mount (Some 0)]
       probe_instance HCropstart "pointerdown" CallReset eq_refl)))).
Defined.

(** C4 fails as stated: [moveTo(5)] on a mounted facade does not ask the
    instance for [moveTo(5)] with the second argument left out; it asks for
    [moveTo(5, 5)]. *)
Lemma C4_counterexample :
  ulog (exec (CallMoveTo 5%Z None) probe_mounted).2
    ≠ ulog probe_mounted ++ [UInvoke (spec_passthrough (CallMoveTo 5%Z None))].
Proof.
  intros H. apply (f_equal (λ l, l !! 1)) in H. vm_compute in H.
  discriminate H.
Qed.

(** C4 as amended, on the stand-in: [moveTo(5)] asks for [moveTo(5, 5)]. *)
Lemma C4_witness :
  cropper probe_mounted = Some probe_instance
  ∧ ulog (exec (CallMoveTo 5%Z None) probe_mounted).2
      = ulog probe_mounted ++ [UInvoke (UMoveTo 5%Z (Some 5%Z))].
Proof.
  split; [reflexivity|].
  exact (proj1 (proj2 (proj2
    (C4_forwarding_with_defaults (L:=probe) probe_mounted probe_instance
       (CallMoveTo 5%Z None) eq_refl)))).
Defined.

(** C7 fails as stated: after mount and [destroy()] the facade is not in
    the state where the instance is released and methods no-op; it is where
    methods forward, and a [reset()] does reach the instance. *)
Lemma C7_counterexample :
  spec_state_of probe_destroyed ≠ SDestroyed
  ∧ (exec CallReset probe_destroyed).1 ≠ Return Undefined.
Proof. split; vm_compute; discriminate. Qed.

(** C7 as amended, on the stand-in: mounted with element 0, then
    [destroy()], a second mount attempt and a call; the holder still has the
    instance of element 0. *)
Lemma C7_witness :
  cropper (run [Mount (Some 0)] (setup (L:=probe) probe_props))
    = Some probe_instance
  ∧ ∃ i', cropper (run [Invoke CallDestroy; Mount (Some 1); Invoke CallReset]
                     (run [Mount (Some 0)] (setup (L:=probe) probe_props)))
            = Some i'
          ∧ inst_element i' = 0.
Proof.
  split; [reflexivity|].
  destruct (proj1 (proj1 (proj2 (proj2
    (C7_one_transition (L:=probe) probe_props [Mount (Some 0)]
       [Invoke CallDestroy; Mount (Some 1); Invoke CallReset])))
    probe_instance eq_refl)) as (i' & Hi' & He & _).
  exists i'. split; [exact Hi' | exact He].
Defined.

(** C8 fails as stated: after the first [destroy()] the facade is not in the
    state where the instance is released, and the second [destroy()] is not
    without effect: it reaches the instance again. *)
Lemma C8_counterexample :
  spec_state_of (destroy probe_mounted).2 ≠ SDestroyed
  ∧ inst_state <$> cropper (destroy (destroy probe_mounted).2).2
      ≠ inst_state <$> cropper (destroy probe_mounted).2.
Proof. split; vm_compute; discriminate. Qed.

(** C5 fails as stated: the callbacks of the options literal are not five. *)
Lemma C5_counterexample :
  size (dom (cropper_options (L:=probe) (Some 2%Z)) ∖ {[ "aspectRatio" ]}) ≠ 5.
Proof. vm_compute. discriminate. Qed.

(** C6 fails as stated: [crop] is in the forwarding set of the specification
    and is not exposed, while [initCrop] and [setData] are exposed and are
    not in it. *)
Lemma C6_counterexample :
  ("crop" ∈ spec_forwarding_set ∧ "crop" ∉ defineExpose_keys)
  ∧ ("initCrop" ∈ defineExpose_keys ∧ "initCrop" ∉ spec_forwarding_set)
  ∧ ("setData" ∈ defineExpose_keys ∧ "setData" ∉ spec_forwarding_set).
Proof. repeat split; decide_by_compute. Qed.

(** C9 fails as stated: with an empty [imgStyle] the style of the image is
    not [imgStyle]. *)
Lemma C9_counterexample :
  attr_of "style" <$> children_of (render (L:=probe) probe_props)
    ≠ [Some (AStyle (imgStyle probe_props))].
Proof. vm_compute. intros H. discriminate H. Qed.

(** ** Further properties of the facade *)

Section Further.

Context {L : CropperLib}.

Implicit Types (s : state) (i : instance) (c : call) (p : Props number).

(** *** The holder *)

Lemma step_holder_filled (inp : input) s :
  is_Some (cropper s) → is_Some (cropper (step inp s)).
Proof.
  intros [i Hi]. destruct inp as [el| |c|h d]; simpl.
  - destruct (isMounted s); [eauto|].
    unfold onMounted. simpl. destruct el; simpl; eauto.
  - eauto.
  - rewrite (exec_live c s i Hi). simpl. eauto.
  - unfold fire. rewrite Hi. simpl. eauto.
Qed.

Lemma run_holder_filled (tr : list input) s :
  is_Some (cropper s) → is_Some (cropper (run tr s)).
Proof.
  revert s. induction tr as [|inp tr IH]; intros s H; [exact H|].
  simpl. apply IH, step_holder_filled, H.
Qed.

(** X1.  An exposed method throws the facade's own [TypeError] exactly when
    the holder is empty and the method is one of those written with [!.];
    the property named in the error is then the method's own name. *)
Theorem X1_TypeError_iff c s (t : string) :
  (exec c s).1 = Throw (TypeError_reading t)
  ↔ cropper s = None ∧ guarded c = false ∧ t = exposed_key c.
Proof.
  split.
  - destruct (cropper s) as [i|] eqn:Hi.
    + rewrite (exec_live c s i Hi). simpl. intros H.
      exfalso. exact (propagate_not_TypeError _ _ H).
    + rewrite (exec_absent c s Hi). simpl.
      destruct (guarded c); [discriminate|]. intros H.
      injection H as H. auto.
  - intros (Hs & Hg & ->). rewrite (exec_absent c s Hs), Hg. reflexivity.
Qed.

(** X2.  While the holder is empty, nothing the host calls and nothing the
    library fires changes the component: any sequence of method calls and
    hook firings leaves the state exactly as it was. *)
Theorem X2_inert_while_empty (tr : list input) s :
  cropper s = None →
  Forall (λ inp, is_lifecycle inp = false) tr →
  run tr s = s.
Proof.
  intros Hs. induction 1 as [|inp tr Hinp _ IH]; [reflexivity|].
  simpl. destruct inp as [el| |c|h d]; try discriminate; simpl.
  - rewrite (exec_absent c s Hs). exact IH.
  - unfold fire. rewrite Hs. exact IH.
Qed.

(** X3.  A mount that rendered no image element is final: whatever follows,
    the holder stays empty and nothing is constructed, so from then on every
    method written with [?.] returns [undefined] and every method written
    with [!.] throws. *)
Theorem X3_mount_without_element_is_final p (tr : list input) c :
  cropper (run (Mount None :: tr) (setup p)) = None
  ∧ constructions (run (Mount None :: tr) (setup p)) = 0
  ∧ exec c (run (Mount None :: tr) (setup p))
      = (if guarded c then Return Undefined
         else Throw (TypeError_reading (exposed_key c)),
         run (Mount None :: tr) (setup p)).
Proof.
  destruct (holder_empty_until_mounted p tr) as [_ Hc].
  split; [exact Hc|]. split.
  - rewrite (invariant_constructions p _ (invariant_run p _)), Hc. reflexivity.
  - apply exec_absent, Hc.
Qed.

Lemma silent_step (inp : input) s :
  (cropper s = None → emitted s = []) →
  cropper (step inp s) = None → emitted (step inp s) = [].
Proof.
  intros Hs Hn. destruct (cropper s) as [i|] eqn:Hi.
  - destruct (step_holder_filled inp s) as [i' Hi']; [rewrite Hi; eauto|].
    congruence.
  - specialize (Hs eq_refl). destruct inp as [el| |c|h d]; simpl in *.
    + destruct (isMounted s); [exact Hs|].
      unfold onMounted in *. simpl in *. destruct el; [discriminate|exact Hs].
    + exact Hs.
    + rewrite (exec_absent c s Hi). exact Hs.
    + unfold fire. rewrite Hi. exact Hs.
Qed.

Lemma silent_run (tr : list input) s :
  (cropper s = None → emitted s = []) →
  cropper (run tr s) = None → emitted (run tr s) = [].
Proof.
  revert s. induction tr as [|inp tr IH]; intros s Hs; [exact Hs|].
  simpl. apply IH. apply silent_step, Hs.
Qed.

(** X4.  As long as no instance has been constructed the component is silent:
    in every run that ends with an empty holder, no signal has been emitted
    and nothing has been asked of the library. *)
Theorem X4_silent_while_empty p (tr : list input) :
  cropper (run tr (setup p)) = None →
  emitted (run tr (setup p)) = [] ∧ ulog (run tr (setup p)) = [].
Proof.
  intros Hn. split.
  - apply silent_run; [reflexivity | exact Hn].
  - pose proof (invariant_run p tr) as (_ & _ & Hc). rewrite Hn in Hc.
    exact Hc.
Qed.

(** *** Destruction *)

Lemma destroy_forwarded_step (inp : input) s :
  destroy_forwarded (step inp s) = true →
  destroy_forwarded s = true ∨ inp = Invoke CallDestroy.
Proof.
  destruct inp as [el| |c|h d]; simpl.
  - destruct (isMounted s); [auto|].
    unfold onMounted. simpl. destruct el; simpl; [|auto].
    unfold destroy_forwarded. simpl. rewrite existsb_app. simpl.
    rewrite orb_false_r. auto.
  - auto.
  - destruct (cropper s) as [i|] eqn:Hi.
    + rewrite (exec_live c s i Hi), forward_destroy_forwarded.
      intros H. apply orb_true_iff in H as [H|H]; [auto|].
      right. apply is_destroy_passthrough in H. congruence.
    + rewrite (exec_absent c s Hi). auto.
  - unfold fire. destruct (cropper s); auto.
Qed.

Lemma destroy_forwarded_run (tr : list input) s :
  destroy_forwarded (run tr s) = true →
  destroy_forwarded s = true ∨ Invoke CallDestroy ∈ tr.
Proof.
  revert s. induction tr as [|inp tr IH]; intros s H; [auto|].
  simpl in H. apply IH in H as [H|H].
  - apply destroy_forwarded_step in H as [H| ->]; [auto|].
    right. apply elem_of_cons. auto.
  - right. apply elem_of_cons. auto.
Qed.

(** X5.  The wrapped instance is destroyed only on the host's explicit
    [destroy()]: a run that ends destroyed contains that call.  No other
    method, no firing and no unmount of the component destroys it. *)
Theorem X5_destroyed_only_by_destroy p (tr : list input) :
  phase_of (run tr (setup p)) = Destroyed → Invoke CallDestroy ∈ tr.
Proof.
  unfold phase_of. destruct (cropper _); [|discriminate].
  destruct (destroy_forwarded (run tr (setup p))) eqn:Hd; [|discriminate].
  intros _. apply destroy_forwarded_run in Hd as [Hd|Hd]; [discriminate|].
  exact Hd.
Qed.

(** X6.  Once the holder is filled no exposed method throws the facade's own
    [TypeError] any more, whatever happens in between: not after
    [destroy()], not after an unmount. *)
Theorem X6_no_TypeError_once_filled (tr : list input) s i c (t : string) :
  cropper s = Some i →
  (exec c (run tr s)).1 ≠ Throw (TypeError_reading t).
Proof.
  intros Hi. destruct (run_holder_filled tr s) as [i' Hi']; [eauto|].
  rewrite (exec_live c _ i' Hi'). simpl. apply propagate_not_TypeError.
Qed.

(** *** Arguments *)

(** X7.  Leaving out an optional argument that has a declared default is the
    same as passing that default, in every state: [moveTo(x)] is
    [moveTo(x, x)], [scale(x)] is [scale(x, x)], [replace(url)] is
    [replace(url, false)], [getData()] is [getData(false)] and
    [getCroppedCanvas()] is [getCroppedCanvas({})]. *)
Theorem X7_omitted_is_default c s : exec c s = exec (fill_defaults c) s.
Proof.
  destruct c as [| | |? []| | | | |? []| | | | | | |? []|[]| | | | | | | |[]| |];
    reflexivity.
Qed.

(** *** The template *)

(** X8.  The style of the rendered image is [imgStyle] itself exactly when
    [imgStyle] sets [max-width]; otherwise it is [imgStyle] with the entry
    [max-width: 100%] added.  Either way its keys are those of [imgStyle]
    and [max-width]. *)
Theorem X8_img_style p :
  (attr_of "style" <$> children_of (render p) = [Some (AStyle (imgStyle p))]
   ↔ is_Some (imgStyle p !! "max-width"))
  ∧ (imgStyle p !! "max-width" = None →
     attr_of "style" <$> children_of (render p)
       = [Some (AStyle (<[ "max-width" := "100%" ]> (imgStyle p)))])
  ∧ ∃ css, attr_of "style" <$> children_of (render p) = [Some (AStyle css)]
           ∧ dom css = {[ "max-width" ]} ∪ dom (imgStyle p).
Proof.
  change (attr_of "style" <$> children_of (render p))
    with [Some (AStyle (spread {[ "max-width" := "100%" ]} (imgStyle p)))].
  unfold spread. split; [split|split].
  - intros H. injection H as H.
    rewrite <- H, lookup_union, lookup_singleton_eq.
    destruct (imgStyle p !! "max-width"); simpl; eauto.
  - intros [v Hv]. do 3 f_equal. apply map_eq. intros k.
    rewrite lookup_union. destruct (decide (k = "max-width")) as [->|Hk].
    + rewrite Hv, lookup_singleton_eq. reflexivity.
    + rewrite lookup_singleton_ne by congruence.
      destruct (imgStyle p !! k); reflexivity.
  - intros Hn. do 3 f_equal. apply map_eq. intros k.
    rewrite lookup_union. destruct (decide (k = "max-width")) as [->|Hk].
    + rewrite Hn, lookup_singleton_eq, lookup_insert_eq. reflexivity.
    + rewrite lookup_singleton_ne, lookup_insert_ne by congruence.
      destruct (imgStyle p !! k); reflexivity.
  - eexists. split; [reflexivity|].
    rewrite dom_union_L, dom_singleton_L. apply (comm_L (∪)).
Qed.

(** *** What reaches the library *)

Lemma ulog_run_filled p (tr : list input) s i :
  invariant p s → cropper s = Some i →
  ulog (run tr s)
    = ulog s ++ ((λ c, UInvoke (spec_passthrough (fill_defaults c)))
                   <$> calls_of tr).
Proof.
  revert s i. induction tr as [|inp tr IH]; intros s i Hinv Hi.
  - simpl. rewrite app_nil_r. reflexivity.
  - destruct (step_keeps_holder p inp s i Hinv Hi) as (i' & Hi' & _).
    simpl. rewrite (IH _ i' (invariant_step p inp s Hinv) Hi').
    pose proof Hinv as (_ & _ & Hc). rewrite Hi in Hc. destruct Hc as (Hm & _).
    destruct inp as [el| |c|h d]; simpl.
    + rewrite Hm. reflexivity.
    + reflexivity.
    + rewrite (exec_live c s i Hi). simpl. rewrite <- app_assoc. reflexivity.
    + unfold fire. rewrite Hi. reflexivity.
Qed.

(** X10.  After a mount that rendered an element, what is asked of the
    library is the one construction and then, for each method call the host
    makes, in the order the host makes them, exactly one call of the method
    the specification names for it with the defaults filled in.  No call of
    the host is dropped, doubled or reordered, and nothing but the host's
    calls (no firing, no unmount, no further mount) asks anything of the
    library. *)
Theorem X10_host_calls_reach_library_in_order p (el : element) (tr : list input) :
  ulog (run (Mount (Some el) :: tr) (setup p))
    = UNew el (cropper_options (aspectRatio p))
        :: ((λ c, UInvoke (spec_passthrough (fill_defaults c)))
              <$> calls_of tr).
Proof.
  change (run (Mount (Some el) :: tr) (setup p))
    with (run tr (run [Mount (Some el)] (setup p))).
  rewrite (ulog_run_filled p tr _ _ (invariant_run p [Mount (Some el)]) eq_refl).
  reflexivity.
Qed.

(** *** Signals *)

(** X11.  What a callback of the options literal emits tells which hook
    fired and nothing more: two firings lead to the same emission exactly
    when they are firings of the same hook, whatever their details. *)
Theorem X11_emission_identifies_hook (a : option number)
    (h1 h2 : hook) (d1 d2 : value) :
  deliver (cropper_options a) (h1, d1) = deliver (cropper_options a) (h2, d2)
  ↔ h1 = h2.
Proof.
  rewrite !deliver_cropper_options. split.
  - intros H. injection H as H. destruct h1, h2; (reflexivity || discriminate).
  - intros ->. reflexivity.
Qed.

(** X12.  The instance belongs to the element of the first mount: after a
    mount that rendered element [el], whatever follows (calls, firings,
    [destroy()], an unmount, further mount attempts with other elements),
    the holder has an instance constructed with [el] and with the options
    literal built from the [aspectRatio] prop, and it is the only instance
    ever constructed. *)
Theorem X12_bound_to_first_element p (el : element) (tr : list input) :
  ∃ i, cropper (run (Mount (Some el) :: tr) (setup p)) = Some i
       ∧ inst_element i = el
       ∧ inst_options i = cropper_options (aspectRatio p)
       ∧ constructions (run (Mount (Some el) :: tr) (setup p)) = 1.
Proof.
  pose proof (invariant_run p [Mount (Some el)]) as Hinv1.
  destruct (run_keeps_holder p tr (run [Mount (Some el)] (setup p))
              (Instance el (cropper_options (aspectRatio p))
                 (lib_new el (cropper_options (aspectRatio p))))
              Hinv1 eq_refl) as (i & Hi & He & Ho).
  exists i. change (run (Mount (Some el) :: tr) (setup p))
    with (run tr (run [Mount (Some el)] (setup p))).
  split; [exact Hi|]. split; [exact He|]. split; [exact Ho|].
  rewrite (invariant_constructions p _ (invariant_run_from p tr _ Hinv1)), Hi.
  reflexivity.
Qed.

(** X13.  On a facade whose holder is filled, a sequence of hook firings is
    re-emitted one for one and in order: after the firings [fs] the signals
    emitted are those emitted before, followed by the signal of each firing
    in turn, each without argument. *)
Theorem X13_firings_in_order p (tr : list input) i (fs : list (hook * value)) :
  cropper (run tr (setup p)) = Some i →
  emitted (run ((λ f, Fire f.1 f.2) <$> fs) (run tr (setup p)))
    = emitted (run tr (setup p)) ++ ((λ f, Emission (signal_of f.1) []) <$> fs).
Proof.
  intros Hi. pose proof (invariant_run p tr) as Hinv.
  revert Hi Hinv. generalize (run tr (setup p)) as s. intros s. revert s i.
  induction fs as [|[h d] fs IH]; intros s i Hi Hinv.
  - simpl. rewrite app_nil_r. reflexivity.
  - rewrite !fmap_cons. cbn [run fold_left fst snd].
    change (fold_left (λ s0 (i0 : input), step i0 s0)
              ((λ f, Fire f.1 f.2) <$> fs) (step (Fire h d) s))
      with (run ((λ f, Fire f.1 f.2) <$> fs) (step (Fire h d) s)).
    destruct (step_keeps_holder p (Fire h d) s i Hinv Hi) as (i' & Hi' & _).
    rewrite (IH _ i' Hi' (invariant_step p _ s Hinv)).
    pose proof Hinv as (_ & _ & Hc). rewrite Hi in Hc.
    destruct Hc as (_ & Ho & _).
    simpl. unfold fire. rewrite Hi. simpl.
    rewrite Ho, deliver_cropper_options, <- app_assoc. reflexivity.
Qed.

End Further.

(** ** The further properties on concrete inputs *)

(** X2 on the stand-in before the mount: three calls and a firing change
    nothing. *)
Lemma X2_witness :
  (cropper probe_fresh = None
   ∧ Forall (λ inp, is_lifecycle (L:=probe) inp = false)
       [Invoke CallReset; Fire HReady "load"; Invoke (CallMove 1%Z None);
        Invoke CallDestroy])
  ∧ run [Invoke CallReset; Fire HReady "load"; Invoke (CallMove 1%Z None);
         Invoke CallDestroy] probe_fresh
      = probe_fresh.
Proof.
  assert (Hf : Forall (λ inp, is_lifecycle (L:=probe) inp = false)
                 [Invoke CallReset; Fire HReady "load";
                  Invoke (CallMove 1%Z None); Invoke CallDestroy])
    by (repeat constructor).
  split; [split; [reflexivity | exact Hf]|].
  exact (X2_inert_while_empty (L:=probe) _ probe_fresh eq_refl Hf).
Defined.

(** X4 on the stand-in: calls, a firing and a mount without element. *)
Lemma X4_witness :
  cropper (run [Invoke CallReset; Mount None; Fire HZoom "wheel"]
             (setup (L:=probe) probe_props)) = None
  ∧ emitted (run [Invoke CallReset; Mount None; Fire HZoom "wheel"]
               (setup (L:=probe) probe_props)) = []
  ∧ ulog (run [Invoke CallReset; Mount None; Fire HZoom "wheel"]
            (setup (L:=probe) probe_props)) = [].
Proof.
  split; [reflexivity|].
  exact (X4_silent_while_empty (L:=probe) probe_props
           [Invoke CallReset; Mount None; Fire HZoom "wheel"] eq_refl).
Defined.

(** X5 on the stand-in: the run that ends destroyed has the call. *)
Lemma X5_witness :
  phase_of (run [Mount (Some 0); Unmount; Invoke CallDestroy]
              (setup (L:=probe) probe_props)) = Destroyed
  ∧ Invoke CallDestroy
      ∈ [Mount (L:=probe) (Some 0); Unmount; Invoke CallDestroy].
Proof.
  split; [reflexivity|].
  exact (X5_destroyed_only_by_destroy (L:=probe) probe_props
           [Mount (Some 0); Unmount; Invoke CallDestroy] eq_refl).
Defined.

(** X6 on the stand-in: [move(1)] after mount, [destroy()] and unmount. *)
Lemma X6_witness :
  cropper probe_mounted = Some probe_instance
  ∧ (exec (CallMove 1%Z None)
       (run [Invoke CallDestroy; Unmount] probe_mounted)).1
      ≠ Throw (TypeError_reading "move").
Proof.
  split; [reflexivity|].
  exact (X6_no_TypeError_once_filled (L:=probe) [Invoke CallDestroy; Unmount]
           probe_mounted probe_instance (CallMove 1%Z None) "move" eq_refl).
Defined.

(** X13 on the stand-in: a pointer gesture after mount. *)
Lemma X13_witness :
  cropper (run [Mount (Some 0)] (setup (L:=probe) probe_props))
    = Some probe_instance
  ∧ emitted (run [Fire HCropstart "down"; Fire HCropmove "move";
                  Fire HCropend "up"]
               (run [Mount (Some 0)] (setup (L:=probe) probe_props)))
      = [Emission "start" []; Emission "move" []; Emission "end" []].
Proof.
  split; [reflexivity|].
  exact (X13_firings_in_order (L:=probe) probe_props [Mount (Some 0)]
           probe_instance
           [(HCropstart, "down"); (HCropmove, "move"); (HCropend, "up")]
           eq_refl).
Defined.
